(** * usePointerSwipe: swipe detection on pointer events

    A shallow embedding of [src/useSwipePointer/usePointerSwipe.ts].

    - JavaScript numbers (pointer coordinates, the [buttons] mask, the
      threshold) are integers, [Z]; pointer types are strings.
    - The reactive ledger ([posStart], [posEnd]) and the two refs
      ([isSwiping], [isPointerDown]) form the record [State]; the computed
      values ([distanceX], [distanceY], [isThresholdExceeded], [direction])
      are functions of it, as a Vue [computed] is of its dependencies.
    - The three listeners are commands of a small state, output and
      exception monad: they read and write the [State], emit [Effect]s
      (calls of the optional callbacks, pointer capture) in program order,
      and stop where a call throws, keeping what was written before.
      [setPointerCapture] can throw; the callbacks are taken to return.
    - The document-level listeners of the source only write to the console
      and never touch the tracker; they are left out, and so are the style
      properties set on the target when the component is mounted. *)

From Stdlib Require Import ZArith List String Bool Lia.
Import ListNotations.
Local Open Scope Z_scope.

(** ** Data *)

(** [type UseSwipeDirection = 'down' | 'left' | 'none' | 'right' | 'up'] *)
Module Direction.
Inductive t : Set := down | left | none | right | up.
End Direction.

Definition UseSwipeDirection : Set := Direction.t.

Record Position : Set := { x : Z; y : Z }.

(** A DOM element, known by an identifier. *)
Definition Element : Set := nat.

(** The target of a pointer event: the element, and what its
    [setPointerCapture] does for a pointer id when the event is handled,
    [true] when the call returns and [false] when it throws (the DOM
    throws [NotFoundError] for a pointer id that is not active). *)
Record EventTarget : Set := {
  element : Element;
  setPointerCapture : Z -> bool
}.

(** The fields of a [PointerEvent] the tracker reads. *)
Record PointerEvent : Set := {
  pointerType : string;
  buttons : Z;
  clientX : Z;
  clientY : Z;
  pointerId : Z;
  target : option EventTarget
}.

(** [UsePointerSwipeOptions]. An optional field is an [option]; an optional
    callback is opaque, so only its presence is recorded. *)
Module Options.
Record t : Set := {
  disableTextSelect : option bool;
  onSwipe : bool;
  onSwipeEnd : bool;
  onSwipeStart : bool;
  pointerTypes : option (list string);
  threshold : option Z
}.
End Options.

Definition UsePointerSwipeOptions : Set := Options.t.

(** What a listener does to the outside world. *)
Inductive Effect : Set :=
| SetPointerCapture (el : EventTarget) (id : Z)
| CallSwipeStart (e : PointerEvent)
| CallSwipe (e : PointerEvent)
| CallSwipeEnd (e : PointerEvent) (d : UseSwipeDirection).

Definition is_callback (f : Effect) : bool :=
  match f with
  | SetPointerCapture _ _ => false
  | _ => true
  end.

Definition is_swipe_end (f : Effect) : bool :=
  match f with
  | CallSwipeEnd _ _ => true
  | _ => false
  end.

(** The callbacks among the effects, in order. *)
Definition callbacks (w : list Effect) : list Effect := filter is_callback w.

(** The tracker's own mutable state. *)
Record State : Set := {
  posStart : Position;
  posEnd : Position;
  isSwiping : bool;
  isPointerDown : bool
}.

(** ** The listener monad: state passing with an output log and
    exceptions *)

(** A command ends with a value, or with [None] when a call in it threw;
    either way the state written and the effects emitted so far stay. *)
Definition M (A : Type) : Type := State -> option A * State * list Effect.

Definition ret {A} (a : A) : M A := fun s => (Some a, s, []).

Definition bind {A B} (m : M A) (k : A -> M B) : M B :=
  fun s =>
    let '(r, s1, w1) := m s in
    match r with
    | Some a => let '(b, s2, w2) := k a s1 in (b, s2, w1 ++ w2)
    | None => (None, s1, w1)
    end.

(** An exception leaves the listener. *)
Definition throw {A} : M A := fun s => (None, s, []).

Declare Scope swipe_scope.
Delimit Scope swipe_scope with swipe.
Notation "v <- m ;; k" := (bind m (fun v => k))
  (at level 61, m at next level, right associativity) : swipe_scope.
Notation "m ;; k" := (bind m (fun _ => k))
  (at level 61, right associativity) : swipe_scope.
Local Open Scope swipe_scope.

Definition read {A} (f : State -> A) : M A := fun s => (Some (f s), s, []).

Definition emit (f : Effect) : M unit := fun s => (Some tt, s, [f]).

(** [cb?.(...)]: the call happens only when the callback was supplied. *)
Definition optional_call (present : bool) (f : Effect) : M unit :=
  if present then emit f else ret tt.

Definition updatePosStart (px py : Z) : M unit :=
  fun s => (Some tt, {| posStart := {| x := px; y := py |};
                   posEnd := posEnd s;
                   isSwiping := isSwiping s;
                   isPointerDown := isPointerDown s |}, []).

Definition updatePosEnd (px py : Z) : M unit :=
  fun s => (Some tt, {| posStart := posStart s;
                   posEnd := {| x := px; y := py |};
                   isSwiping := isSwiping s;
                   isPointerDown := isPointerDown s |}, []).

Definition set_isSwiping (b : bool) : M unit :=
  fun s => (Some tt, {| posStart := posStart s;
                   posEnd := posEnd s;
                   isSwiping := b;
                   isPointerDown := isPointerDown s |}, []).

Definition set_isPointerDown (b : bool) : M unit :=
  fun s => (Some tt, {| posStart := posStart s;
                   posEnd := posEnd s;
                   isSwiping := isSwiping s;
                   isPointerDown := b |}, []).

(** Final state and output of a command, thrown or not. *)
Definition exec {A} (m : M A) (s : State) : State * list Effect :=
  let '(_, s', w) := m s in (s', w).

(** ** JavaScript operators used by the input filter *)

(** [Array.prototype.includes] on strings. *)
Definition includes (l : list string) (v : string) : bool :=
  existsb (String.eqb v) l.

(** [a?.f(...)]: [undefined] when [a] is. *)
Definition optional_chain {A B} (a : option A) (f : A -> B) : option B :=
  match a with
  | Some v => Some (f v)
  | None => None
  end.

(** [a ?? b]: [b] when [a] is nullish, [a] otherwise. *)
Definition nullish_coalesce {A} (a : option A) (b : A) : A :=
  match a with
  | Some v => v
  | None => b
  end.

Infix "??" := nullish_coalesce (at level 45, left associativity) : swipe_scope.

(** ** The tracker *)

Section UsePointerSwipe.

Variable options : UsePointerSwipeOptions.

(** [const { threshold = 50, ... } = options] *)
Definition threshold : Z := Options.threshold options ?? 50.

Definition distanceX (s : State) : Z := x (posStart s) - x (posEnd s).
Definition distanceY (s : State) : Z := y (posStart s) - y (posEnd s).

Definition isThresholdExceeded (s : State) : bool :=
  Z.max (Z.abs (distanceX s)) (Z.abs (distanceY s)) >=? threshold.

Definition direction (s : State) : UseSwipeDirection :=
  if negb (isThresholdExceeded s) then Direction.none
  else if Z.abs (distanceX s) >? Z.abs (distanceY s) then
    if distanceX s >? 0 then Direction.left else Direction.right
  else
    if distanceY s >? 0 then Direction.up else Direction.down.

(** The input filter. A boolean is never nullish, so the left operand of
    the second [??] is a defined value. *)
Definition eventIsAllowed (e : PointerEvent) : bool :=
  let isReleasingButton := buttons e =? 0 in
  let isPrimaryButton := buttons e =? 1 in
  Some (optional_chain (Options.pointerTypes options)
          (fun l => includes l (pointerType e))
        ?? (isReleasingButton || isPrimaryButton))
  ?? true.

(** The same expression with the last operand left open. *)
Definition eventIsAllowed_fallback (d : bool) (e : PointerEvent) : bool :=
  let isReleasingButton := buttons e =? 0 in
  let isPrimaryButton := buttons e =? 1 in
  Some (optional_chain (Options.pointerTypes options)
          (fun l => includes l (pointerType e))
        ?? (isReleasingButton || isPrimaryButton))
  ?? d.

(** The filter as the specification words it (section 4.1): with an
    allow-list, membership of the pointer type; without one, a release
    state or exactly the primary button. *)
Definition isEventAllowed (e : PointerEvent) : bool :=
  match Options.pointerTypes options with
  | Some allow => if in_dec string_dec (pointerType e) allow then true else false
  | None => if Z.eq_dec (buttons e) 0 then true
            else if Z.eq_dec (buttons e) 1 then true else false
  end.

(** *** The three listeners *)

Definition on_pointerdown (e : PointerEvent) : M unit :=
  if negb (eventIsAllowed e) then ret tt
  else
    set_isPointerDown true ;;
    match target e with
    | Some eventTarget =>
        if setPointerCapture eventTarget (pointerId e)
        then emit (SetPointerCapture eventTarget (pointerId e))
        else throw
    | None => ret tt
    end ;;
    updatePosStart (clientX e) (clientY e) ;;
    updatePosEnd (clientX e) (clientY e) ;;
    optional_call (Options.onSwipeStart options) (CallSwipeStart e).

Definition on_pointermove (e : PointerEvent) : M unit :=
  if negb (eventIsAllowed e) then ret tt
  else
    down <- read isPointerDown ;;
    if negb down then ret tt
    else
      updatePosEnd (clientX e) (clientY e) ;;
      swiping <- read isSwiping ;;
      exceeded <- read isThresholdExceeded ;;
      (if negb swiping && exceeded then set_isSwiping true else ret tt) ;;
      swiping' <- read isSwiping ;;
      if swiping' then optional_call (Options.onSwipe options) (CallSwipe e)
      else ret tt.

Definition on_pointerup (e : PointerEvent) : M unit :=
  if negb (eventIsAllowed e) then ret tt
  else
    swiping <- read isSwiping ;;
    (if swiping then
       d <- read direction ;;
       optional_call (Options.onSwipeEnd options) (CallSwipeEnd e d)
     else ret tt) ;;
    set_isPointerDown false ;;
    set_isSwiping false.

End UsePointerSwipe.

(** ** The event bridge *)

(** The events the tracker subscribes to. *)
Inductive EventName : Set := pointerdown | pointermove | pointerup.

Definition EventName_eq_dec (a b : EventName) : {a = b} + {a <> b}.
Proof. decide equality. Defined.

(** Modelled from the spec: [useEventListener] ([./useEventListener.ts]) is
    imported by the source, its code is missing. Following section 4.4, registering a
    listener attaches the handler to the target, and the function it returns
    detaches that one handler and nothing more. The target's listeners are
    the list of event names that still have their handler attached. *)
Definition useEventListener (n : EventName) (attached : list EventName)
  : list EventName * (list EventName -> list EventName) :=
  (attached ++ [n], remove EventName_eq_dec n).

(** The handle: the state and what is still attached to the target. *)
Record Tracker : Set := {
  state : State;
  listeners : list EventName
}.

(** [const stops = [useEventListener(...), useEventListener(...),
    useEventListener(...)]]: the listeners after the three registrations and
    the three functions collected. *)
Definition registrations
  : list EventName * list (list EventName -> list EventName) :=
  let '(l1, s1) := useEventListener pointerdown [] in
  let '(l2, s2) := useEventListener pointermove l1 in
  let '(l3, s3) := useEventListener pointerup l2 in
  (l3, [s1; s2; s3]).

Definition stops : list (list EventName -> list EventName) := snd registrations.

(** [const stop = () => stops.forEach(s => s())] *)
Definition stop (tr : Tracker) : Tracker :=
  {| state := state tr;
     listeners := fold_left (fun attached s => s attached) stops (listeners tr) |}.

(** The handle as constructed: both positions at the origin, both flags
    false, the three listeners attached. *)
Definition usePointerSwipe : Tracker :=
  {| state := {| posStart := {| x := 0; y := 0 |};
                 posEnd := {| x := 0; y := 0 |};
                 isSwiping := false;
                 isPointerDown := false |};
     listeners := fst registrations |}.

(** What can happen to a tracker: the host dispatches a pointer event of
    some name to the target, or the caller invokes [stop]. *)
Inductive Input : Set :=
| Dispatch (n : EventName) (e : PointerEvent)
| Stop.

Section Bridge.

Variable options : UsePointerSwipeOptions.

Definition handler (n : EventName) : PointerEvent -> M unit :=
  match n with
  | pointerdown => on_pointerdown options
  | pointermove => on_pointermove options
  | pointerup => on_pointerup options
  end.

(** The host runs the handler only while it is attached. *)
Definition dispatch (n : EventName) (e : PointerEvent) (tr : Tracker)
  : Tracker * list Effect :=
  if in_dec EventName_eq_dec n (listeners tr) then
    let '(s', w) := exec (handler n e) (state tr) in
    ({| state := s'; listeners := listeners tr |}, w)
  else (tr, []).

Definition step (i : Input) (tr : Tracker) : Tracker * list Effect :=
  match i with
  | Dispatch n e => dispatch n e tr
  | Stop => (stop tr, [])
  end.

(** A sequence of inputs, the effects concatenated in order. *)
Fixpoint run (inputs : list Input) (tr : Tracker) : Tracker * list Effect :=
  match inputs with
  | [] => (tr, [])
  | i :: rest =>
      let '(tr1, w1) := step i tr in
      let '(tr2, w2) := run rest tr1 in
      (tr2, w1 ++ w2)
  end.

(** The trackers visited, one after each input. *)
Fixpoint visited (inputs : list Input) (tr : Tracker) : list Tracker :=
  match inputs with
  | [] => []
  | i :: rest => let tr1 := fst (step i tr) in tr1 :: visited rest tr1
  end.

End Bridge.

(** ** Vocabulary of the statements *)

(** A concrete configuration and ledger used in the examples below. *)
Definition default_options : UsePointerSwipeOptions :=
  {| Options.disableTextSelect := None;
     Options.onSwipe := true;
     Options.onSwipeEnd := true;
     Options.onSwipeStart := true;
     Options.pointerTypes := None;
     Options.threshold := None |}.

Definition ledger (sx sy ex ey : Z) : State :=
  {| posStart := {| x := sx; y := sy |};
     posEnd := {| x := ex; y := ey |};
     isSwiping := false;
     isPointerDown := true |}.

Definition touch_only : UsePointerSwipeOptions :=
  {| Options.disableTextSelect := None;
     Options.onSwipe := true;
     Options.onSwipeEnd := true;
     Options.onSwipeStart := true;
     Options.pointerTypes := Some ["touch"%string];
     Options.threshold := None |}.

(** A surface on which pointer 1 is the one active pointer: capture
    succeeds for it and throws for any other id. *)
Definition surface : EventTarget :=
  {| element := 0%nat; setPointerCapture := fun id => id =? 1 |}.

(** A pointer event of pointer 1 on the surface, at a position, with a
    pointer type and a button mask. *)
Definition pointer (type : string) (b px py : Z) : PointerEvent :=
  {| pointerType := type; buttons := b; clientX := px; clientY := py;
     pointerId := 1; target := Some surface |}.

(** A synthetic primary-button mouse event on the surface whose pointer id,
    2, is not active there. *)
Definition synthetic (px py : Z) : PointerEvent :=
  {| pointerType := "mouse"; buttons := 1; clientX := px; clientY := py;
     pointerId := 2; target := Some surface |}.

(** Whether the capture request of a pointer-down returns: there is no
    target, or the target's [setPointerCapture] does not throw. *)
Definition captures (e : PointerEvent) : bool :=
  match target e with
  | Some eventTarget => setPointerCapture eventTarget (pointerId e)
  | None => true
  end.

(** The position of a pointer event. *)
Definition position_of (e : PointerEvent) : Position :=
  {| x := clientX e; y := clientY e |}.

Definition capture_of (e : PointerEvent) : list Effect :=
  match target e with
  | Some eventTarget => [SetPointerCapture eventTarget (pointerId e)]
  | None => []
  end.

(** Swiping implies a pointer is down, in every tracker the inputs reach. *)
Definition swiping_is_down (tr : Tracker) : Prop :=
  isSwiping (state tr) = true -> isPointerDown (state tr) = true.

(** A state in the middle of a swipe: started at (0,0), now at (100,0). *)
Definition swiping_state : State :=
  {| posStart := {| x := 0; y := 0 |};
     posEnd := {| x := 100; y := 0 |};
     isSwiping := true;
     isPointerDown := true |}.

(** Mouse events: a press or drag with the primary button, a release. *)
Definition press (px py : Z) : PointerEvent := pointer "mouse" 1 px py.
Definition release (px py : Z) : PointerEvent := pointer "mouse" 0 px py.

(** The tracker still has its three listeners. *)
Definition all_attached (tr : Tracker) : Prop := forall n, In n (listeners tr).

(** Whether a pointer at the position of [e] is at least the threshold away
    from the start position [p]. *)
Definition meets options (p : Position) (e : PointerEvent) : bool :=
  isThresholdExceeded options
    {| posStart := p; posEnd := position_of e;
       isSwiping := false; isPointerDown := true |}.

(** One gesture: a pointer-down, the moves, a pointer-up. *)
Definition gesture (e0 : PointerEvent) (moves : list PointerEvent)
  (eu : PointerEvent) : list Input :=
  Dispatch pointerdown e0 :: map (Dispatch pointermove) moves
  ++ [Dispatch pointerup eu].

(** The value of isSwiping after each input. *)
Definition swiping_after options (inputs : list Input) (tr : Tracker)
  : list bool :=
  map (fun t => isSwiping (state t)) (visited options inputs tr).

(** The ledger at the pointer-up of a gesture that started at [e0] and whose
    moves from the first one meeting the threshold are [m :: post]. *)
Definition at_pointerup (e0 m : PointerEvent) (post : list PointerEvent)
  : State :=
  {| posStart := position_of e0;
     posEnd := last (map position_of post) (position_of m);
     isSwiping := true;
     isPointerDown := true |}.

(** ** unrefElement *)

(** [MaybeElement]: a DOM element, a component instance, [null] or
    [undefined]. An instance is known by its [$el], which Vue types as
    [any]. *)
Inductive MaybeElement : Set :=
| ElNull
| ElUndefined
| HTMLElement (el : Element)
| SVGElement (el : Element)
| VueInstance (dollar_el : MaybeElement).

Definition is_nullish (v : MaybeElement) : bool :=
  match v with
  | ElNull | ElUndefined => true
  | _ => false
  end.

(** [v?.$el]: [undefined] on a nullish [v] and on a value that has no such
    property. *)
Definition optional_dollar_el (v : MaybeElement) : MaybeElement :=
  match v with
  | VueInstance el => el
  | _ => ElUndefined
  end.

(** [a ?? b] on values that may be [null] or [undefined]. *)
Definition coalesce (a b : MaybeElement) : MaybeElement :=
  if is_nullish a then b else a.

(** [MaybeRefOrGetter<T>]: a value, a ref holding one, or a getter. *)
Inductive MaybeRefOrGetter (T : Type) : Type :=
| Plain (v : T)
| RefOf (v : T)
| Getter (f : unit -> T).

Arguments Plain {T} v.
Arguments RefOf {T} v.
Arguments Getter {T} f.

(** Vue's [toValue]. *)
Definition toValue {T} (r : MaybeRefOrGetter T) : T :=
  match r with
  | Plain v => v
  | RefOf v => v
  | Getter f => f tt
  end.

Definition unrefElement (elRef : MaybeRefOrGetter MaybeElement) : MaybeElement :=
  let plain := toValue elRef in
  coalesce (optional_dollar_el plain) plain.

(** ** The calendar page ([App.vue]) *)

(** The options [App.vue] passes: an [onSwipeEnd] callback and nothing
    else. *)
Definition app_options : UsePointerSwipeOptions :=
  {| Options.disableTextSelect := None;
     Options.onSwipe := false;
     Options.onSwipeEnd := true;
     Options.onSwipeStart := false;
     Options.pointerTypes := None;
     Options.threshold := None |}.

Section App.

(** The date library is outside the repository: its dates and the three
    operations used are parameters. *)
Variable CalendarDate : Type.
Variable add_month : CalendarDate -> CalendarDate.
Variable subtract_month : CalendarDate -> CalendarDate.
Variable copy : CalendarDate -> CalendarDate.

(** [date.value = date.value.add({ months: 1 }).copy()] *)
Definition nextPage (date : CalendarDate) : CalendarDate :=
  copy (add_month date).

(** [date.value = date.value.subtract({ months: 1 }).copy()] *)
Definition prevPage (date : CalendarDate) : CalendarDate :=
  copy (subtract_month date).

(** The [onSwipeEnd] callback of the page, on the current date. *)
Definition app_onSwipeEnd (d : UseSwipeDirection) (date : CalendarDate)
  : CalendarDate :=
  match d with
  | Direction.right => nextPage date
  | _ => prevPage date
  end.

(** What an effect of the tracker does to the date: only the supplied
    callback acts on it. *)
Definition app_effect (date : CalendarDate) (f : Effect) : CalendarDate :=
  match f with
  | CallSwipeEnd _ d => app_onSwipeEnd d date
  | _ => date
  end.

(** The date after the inputs, from a freshly constructed tracker. *)
Definition app_run (inputs : list Input) (date : CalendarDate) : CalendarDate :=
  fold_left app_effect (snd (run app_options inputs usePointerSwipe)) date.

End App.

(** ** More vocabulary *)

Definition is_swipe_start (f : Effect) : bool :=
  match f with
  | CallSwipeStart _ => true
  | _ => false
  end.


(** How many effects of a kind a log holds. *)
Definition count (p : Effect -> bool) (w : list Effect) : nat :=
  List.length (filter p w).



(** The ledger with start and end exchanged. *)
Definition reversed (s : State) : State :=
  {| posStart := posEnd s; posEnd := posStart s;
     isSwiping := isSwiping s; isPointerDown := isPointerDown s |}.

Definition opposite (d : UseSwipeDirection) : UseSwipeDirection :=
  match d with
  | Direction.down => Direction.up
  | Direction.left => Direction.right
  | Direction.none => Direction.none
  | Direction.right => Direction.left
  | Direction.up => Direction.down
  end.

(** Options with a given threshold and allow-list, all callbacks supplied. *)
Definition options_with (t : option Z) (types : option (list string))
  : UsePointerSwipeOptions :=
  {| Options.disableTextSelect := None;
     Options.onSwipe := true;
     Options.onSwipeEnd := true;
     Options.onSwipeStart := true;
     Options.pointerTypes := types;
     Options.threshold := t |}.

(** * Properties *)

(** ** Geometry *)

Lemma isThresholdExceeded_true options s :
  isThresholdExceeded options s = true <->
  threshold options <= Z.max (Z.abs (distanceX s)) (Z.abs (distanceY s)).
Proof. unfold isThresholdExceeded. apply Z.geb_le. Qed.

Lemma isThresholdExceeded_false options s :
  isThresholdExceeded options s = false <->
  Z.max (Z.abs (distanceX s)) (Z.abs (distanceY s)) < threshold options.
Proof.
  rewrite <- not_true_iff_false, isThresholdExceeded_true. lia.
Qed.

Lemma direction_below options s :
  isThresholdExceeded options s = false -> direction options s = Direction.none.
Proof. intros H. unfold direction. now rewrite H. Qed.

Lemma direction_horizontal options s :
  isThresholdExceeded options s = true ->
  Z.abs (distanceY s) < Z.abs (distanceX s) ->
  direction options s =
  if distanceX s >? 0 then Direction.left else Direction.right.
Proof.
  intros He Hlt. unfold direction. rewrite He. cbn [negb].
  apply Z.gtb_lt in Hlt. now rewrite Hlt.
Qed.

Lemma direction_vertical options s :
  isThresholdExceeded options s = true ->
  Z.abs (distanceX s) <= Z.abs (distanceY s) ->
  direction options s =
  if distanceY s >? 0 then Direction.up else Direction.down.
Proof.
  intros He Hle. unfold direction. rewrite He. cbn [negb].
  destruct (Z.abs (distanceX s) >? Z.abs (distanceY s)) eqn:Hgt; [|reflexivity].
  apply Z.gtb_lt in Hgt. lia.
Qed.

Lemma direction_exceeded_not_none options s :
  isThresholdExceeded options s = true -> direction options s <> Direction.none.
Proof.
  intros He. unfold direction. rewrite He. cbn [negb].
  destruct (_ >? _); destruct (_ >? _); discriminate.
Qed.

(** C1. The direction depends on the ledger and the threshold only. It is
    ['none'] exactly when max(|distanceX|, |distanceY|) is below the
    threshold, so a displacement equal to the threshold is classified; when
    the threshold is met and |distanceX| > |distanceY| it is ['left'] for a
    positive distanceX and ['right'] otherwise; distanceX = 80,
    distanceY = 10 with threshold 50 gives ['left']. *)
Theorem direction_classification options s :
  (forall options' s',
      threshold options' = threshold options ->
      posStart s' = posStart s -> posEnd s' = posEnd s ->
      direction options' s' = direction options s)
  /\ (direction options s = Direction.none <->
      Z.max (Z.abs (distanceX s)) (Z.abs (distanceY s)) < threshold options)
  /\ (Z.max (Z.abs (distanceX s)) (Z.abs (distanceY s)) = threshold options ->
      direction options s <> Direction.none)
  /\ (threshold options <= Z.max (Z.abs (distanceX s)) (Z.abs (distanceY s)) ->
      Z.abs (distanceX s) > Z.abs (distanceY s) ->
      (distanceX s > 0 -> direction options s = Direction.left)
      /\ (distanceX s <= 0 -> direction options s = Direction.right))
  /\ (distanceX s = 80 -> distanceY s = 10 -> threshold options = 50 ->
      direction options s = Direction.left).
Proof.
  split; [|split; [|split; [|split]]].
  - intros options' s' Ht Hs He.
    unfold direction, isThresholdExceeded, distanceX, distanceY.
    now rewrite Ht, Hs, He.
  - split.
    + intros Hd. apply isThresholdExceeded_false.
      destruct (isThresholdExceeded options s) eqn:He; [|reflexivity].
      now apply direction_exceeded_not_none in He.
    + intros Hlt. now apply direction_below, isThresholdExceeded_false.
  - intros Heq. apply direction_exceeded_not_none, isThresholdExceeded_true. lia.
  - intros Hge Hgt. apply isThresholdExceeded_true in Hge.
    rewrite (direction_horizontal options s Hge) by lia.
    split; intros Hx.
    + apply Z.gt_lt, Z.gtb_lt in Hx. now rewrite Hx.
    + destruct (distanceX s >? 0) eqn:Hp; [|reflexivity].
      apply Z.gtb_lt in Hp. lia.
  - intros Hx Hy Ht.
    assert (He : isThresholdExceeded options s = true)
      by (apply isThresholdExceeded_true; lia).
    rewrite (direction_horizontal options s He) by lia.
    now rewrite Hx.
Qed.

Lemma direction_classification_witness :
  direction default_options (ledger 100 40 20 30) = Direction.left
  /\ direction default_options (ledger 0 0 50 0) <> Direction.none
  /\ direction default_options (ledger 0 0 60 0) = Direction.right.
Proof.
  pose proof (direction_classification default_options (ledger 100 40 20 30))
    as (_ & _ & _ & _ & H80).
  pose proof (direction_classification default_options (ledger 0 0 50 0))
    as (_ & _ & Heq & _ & _).
  pose proof (direction_classification default_options (ledger 0 0 60 0))
    as (_ & _ & _ & Hh & _).
  split; [|split].
  - apply H80; reflexivity.
  - apply Heq; reflexivity.
  - apply Hh; [vm_compute; discriminate | reflexivity | vm_compute; discriminate].
Defined.

(** C2 as stated fails: at distanceX = distanceY = 60 with threshold 50 the
    direction is ['up'], neither ['left'] nor ['right']. *)
Lemma direction_tie_counterexample :
  let s := ledger 60 60 0 0 in
  Z.abs (distanceX s) = Z.abs (distanceY s)
  /\ threshold default_options <= Z.abs (distanceX s)
  /\ direction default_options s = Direction.up
  /\ ~ (direction default_options s = Direction.left
        \/ direction default_options s = Direction.right).
Proof.
  cbv zeta. repeat split; try (vm_compute; congruence).
  intros [H | H]; vm_compute in H; discriminate.
Qed.

(** C2, amended. On a tie with the magnitude at or above the threshold the
    vertical axis wins: the direction is ['up'] for a positive distanceY and
    ['down'] otherwise. *)
Theorem direction_tie_vertical options s :
  Z.abs (distanceX s) = Z.abs (distanceY s) ->
  threshold options <= Z.abs (distanceX s) ->
  (distanceY s > 0 -> direction options s = Direction.up)
  /\ (distanceY s <= 0 -> direction options s = Direction.down).
Proof.
  intros Htie Hge.
  assert (He : isThresholdExceeded options s = true)
    by (apply isThresholdExceeded_true; lia).
  rewrite (direction_vertical options s He) by lia.
  split; intros Hy.
  - apply Z.gt_lt, Z.gtb_lt in Hy. now rewrite Hy.
  - destruct (distanceY s >? 0) eqn:Hp; [|reflexivity].
    apply Z.gtb_lt in Hp. lia.
Qed.

Lemma direction_tie_vertical_witness :
  direction default_options (ledger 60 60 0 0) = Direction.up
  /\ direction default_options (ledger 0 0 60 60) = Direction.down.
Proof.
  split.
  - apply (direction_tie_vertical default_options (ledger 60 60 0 0));
      [reflexivity | vm_compute; discriminate | reflexivity].
  - apply (direction_tie_vertical default_options (ledger 0 0 60 60));
      [reflexivity | vm_compute; discriminate | vm_compute; discriminate].
Defined.

(** ** The input filter *)

Lemma includes_In l v : includes l v = true <-> In v l.
Proof.
  unfold includes. rewrite existsb_exists. split.
  - intros (w & Hin & Heq). apply String.eqb_eq in Heq. now subst.
  - intros Hin. exists v. split; [assumption | apply String.eqb_refl].
Qed.

Lemma eventIsAllowed_list options e allow :
  Options.pointerTypes options = Some allow ->
  eventIsAllowed options e = includes allow (pointerType e).
Proof. intros H. unfold eventIsAllowed. now rewrite H. Qed.

Lemma eventIsAllowed_buttons options e :
  Options.pointerTypes options = None ->
  eventIsAllowed options e = (buttons e =? 0) || (buttons e =? 1).
Proof. intros H. unfold eventIsAllowed. now rewrite H. Qed.

(** C5. The input filter equals the simplified predicate of the
    specification: with an allow-list the event is allowed exactly when its
    pointer type is listed, whatever its buttons; without one, exactly when
    buttons is 0 or 1. The trailing [?? true] never decides: any other last
    operand gives the same result. *)
Theorem eventIsAllowed_simplified options e :
  eventIsAllowed options e = isEventAllowed options e
  /\ (forall allow, Options.pointerTypes options = Some allow ->
        (eventIsAllowed options e = true <-> In (pointerType e) allow))
  /\ (Options.pointerTypes options = None ->
        (eventIsAllowed options e = true <-> buttons e = 0 \/ buttons e = 1))
  /\ (forall d, eventIsAllowed_fallback options d e = eventIsAllowed options e).
Proof.
  split; [|split; [|split]].
  - unfold isEventAllowed.
    destruct (Options.pointerTypes options) as [allow|] eqn:Hp.
    + rewrite (eventIsAllowed_list options e allow Hp).
      destruct (in_dec string_dec (pointerType e) allow) as [Hin | Hnin].
      * now apply includes_In.
      * apply not_true_iff_false. now rewrite includes_In.
    + rewrite (eventIsAllowed_buttons options e Hp).
      destruct (Z.eq_dec (buttons e) 0) as [H0 | H0].
      * rewrite H0. reflexivity.
      * destruct (Z.eq_dec (buttons e) 1) as [H1 | H1].
        -- rewrite H1. reflexivity.
        -- apply Z.eqb_neq in H0, H1. now rewrite H0, H1.
  - intros allow Hp. rewrite (eventIsAllowed_list options e allow Hp).
    apply includes_In.
  - intros Hp. rewrite (eventIsAllowed_buttons options e Hp).
    rewrite orb_true_iff, !Z.eqb_eq. reflexivity.
  - intros d. reflexivity.
Qed.

Lemma eventIsAllowed_simplified_witness :
  eventIsAllowed touch_only (pointer "touch" 4 0 0) = true
  /\ eventIsAllowed default_options (pointer "mouse" 1 0 0) = true.
Proof.
  split.
  - apply (eventIsAllowed_simplified touch_only (pointer "touch" 4 0 0)) with
      (allow := ["touch"%string]); [reflexivity | simpl; auto].
  - apply (eventIsAllowed_simplified default_options (pointer "mouse" 1 0 0));
      [reflexivity | right; reflexivity].
Defined.

(** ** The listeners, one event at a time *)

Lemma exec_pointerdown options e s :
  exec (on_pointerdown options e) s =
  if eventIsAllowed options e then
    if captures e then
      ({| posStart := position_of e; posEnd := position_of e;
          isSwiping := isSwiping s; isPointerDown := true |},
       capture_of e ++
       (if Options.onSwipeStart options then [CallSwipeStart e] else []))
    else
      ({| posStart := posStart s; posEnd := posEnd s;
          isSwiping := isSwiping s; isPointerDown := true |}, [])
  else (s, []).
Proof.
  unfold on_pointerdown, capture_of, captures.
  destruct (eventIsAllowed options e); [|reflexivity].
  destruct (target e) as [eventTarget|].
  - destruct (setPointerCapture eventTarget (pointerId e));
      [|reflexivity].
    destruct (Options.onSwipeStart options); reflexivity.
  - destruct (Options.onSwipeStart options); reflexivity.
Qed.

Lemma exec_pointermove options e s :
  exec (on_pointermove options e) s =
  if eventIsAllowed options e && isPointerDown s then
    let s1 := {| posStart := posStart s; posEnd := position_of e;
                 isSwiping := isSwiping s; isPointerDown := isPointerDown s |} in
    let swiping := isSwiping s || isThresholdExceeded options s1 in
    ({| posStart := posStart s; posEnd := position_of e;
        isSwiping := swiping; isPointerDown := isPointerDown s |},
     if swiping && Options.onSwipe options then [CallSwipe e] else [])
  else (s, []).
Proof.
  unfold on_pointermove.
  destruct (eventIsAllowed options e); [|reflexivity].
  destruct s as [ps pe sw pd]. destruct pd; [|reflexivity].
  cbn -[isThresholdExceeded]. unfold exec, bind, read, updatePosEnd.
  cbn -[isThresholdExceeded].
  destruct sw; cbn -[isThresholdExceeded].
  - destruct (Options.onSwipe options); reflexivity.
  - destruct (isThresholdExceeded options _); cbn;
      destruct (Options.onSwipe options); reflexivity.
Qed.

Lemma exec_pointerup options e s :
  exec (on_pointerup options e) s =
  if eventIsAllowed options e then
    ({| posStart := posStart s; posEnd := posEnd s;
        isSwiping := false; isPointerDown := false |},
     if isSwiping s && Options.onSwipeEnd options
     then [CallSwipeEnd e (direction options s)] else [])
  else (s, []).
Proof.
  unfold on_pointerup.
  destruct (eventIsAllowed options e); [|reflexivity].
  destruct s as [ps pe sw pd].
  destruct sw; cbn -[direction]; [|reflexivity].
  unfold exec, bind, read. cbn -[direction].
  destruct (Options.onSwipeEnd options); reflexivity.
Qed.

(** ** The bridge *)

Lemma tracker_eta tr : {| state := state tr; listeners := listeners tr |} = tr.
Proof. now destruct tr. Qed.

Lemma dispatch_attached options n e tr :
  In n (listeners tr) ->
  dispatch options n e tr =
  ({| state := fst (exec (handler options n e) (state tr));
      listeners := listeners tr |},
   snd (exec (handler options n e) (state tr))).
Proof.
  intros Hin. unfold dispatch.
  destruct (in_dec EventName_eq_dec n (listeners tr)) as [_ | Hn]; [|contradiction].
  now destruct (exec (handler options n e) (state tr)).
Qed.

Lemma dispatch_detached options n e tr :
  ~ In n (listeners tr) -> dispatch options n e tr = (tr, []).
Proof.
  intros Hn. unfold dispatch.
  now destruct (in_dec EventName_eq_dec n (listeners tr)).
Qed.

Lemma dispatch_listeners options n e tr :
  listeners (fst (dispatch options n e tr)) = listeners tr.
Proof.
  unfold dispatch.
  destruct (in_dec EventName_eq_dec n (listeners tr)); [|reflexivity].
  now destruct (exec (handler options n e) (state tr)).
Qed.

Lemma exec_disallowed options n e s :
  eventIsAllowed options e = false -> exec (handler options n e) s = (s, []).
Proof.
  intros Hd. destruct n; cbn [handler].
  - now rewrite exec_pointerdown, Hd.
  - now rewrite exec_pointermove, Hd.
  - now rewrite exec_pointerup, Hd.
Qed.

Lemma dispatch_noop options n e tr :
  exec (handler options n e) (state tr) = (state tr, []) ->
  dispatch options n e tr = (tr, []).
Proof.
  intros He. unfold dispatch.
  destruct (in_dec EventName_eq_dec n (listeners tr)); [|reflexivity].
  rewrite He. now rewrite tracker_eta.
Qed.

Lemma run_app options a b tr :
  run options (a ++ b) tr =
  let '(tr1, w1) := run options a tr in
  let '(tr2, w2) := run options b tr1 in
  (tr2, w1 ++ w2).
Proof.
  revert tr. induction a as [|i a IH]; intros tr; cbn [run app].
  - now destruct (run options b tr).
  - destruct (step options i tr) as [tr1 w1]. rewrite IH.
    destruct (run options a tr1) as [tr2 w2].
    destruct (run options b tr2) as [tr3 w3].
    now rewrite app_assoc.
Qed.

Lemma step_swiping_is_down options i tr :
  swiping_is_down tr -> swiping_is_down (fst (step options i tr)).
Proof.
  unfold swiping_is_down. intros Hinv. destruct i as [n e|]; cbn [step fst].
  - unfold dispatch.
    destruct (in_dec EventName_eq_dec n (listeners tr)); [|exact Hinv].
    destruct n; cbn [handler].
    + rewrite exec_pointerdown.
      destruct (eventIsAllowed options e); [destruct (captures e)|];
        cbn; auto.
    + rewrite exec_pointermove.
      destruct (eventIsAllowed options e); cbn [andb]; [|exact Hinv].
      destruct (isPointerDown (state tr)) eqn:Hd; cbn; auto.
      rewrite Hd. exact Hinv.
    + rewrite exec_pointerup. destruct (eventIsAllowed options e); cbn; auto.
  - exact Hinv.
Qed.

Lemma run_swiping_is_down options inputs tr :
  swiping_is_down tr -> swiping_is_down (fst (run options inputs tr)).
Proof.
  revert tr. induction inputs as [|i rest IH]; intros tr Hinv; cbn [run].
  - exact Hinv.
  - pose proof (step_swiping_is_down options i tr Hinv) as H1.
    destruct (step options i tr) as [tr1 w1]. cbn [fst] in H1.
    specialize (IH tr1 H1). now destruct (run options rest tr1).
Qed.

Lemma usePointerSwipe_swiping_is_down : swiping_is_down usePointerSwipe.
Proof. unfold swiping_is_down. cbn. discriminate. Qed.

(** ** Pointer-down *)

(** C10 as stated fails: a pointer-down is allowed and its
    [setPointerCapture] throws, the pointer id not being active on the
    target. The handler has set isPointerDown and stops there: posStart and
    posEnd are not the event's coordinates and onSwipeStart is not
    called. *)
Lemma pointerdown_any_state_counterexample :
  let e := synthetic 7 9 in
  let s := state usePointerSwipe in
  let s' := fst (exec (on_pointerdown default_options e) s) in
  let w := snd (exec (on_pointerdown default_options e) s) in
  eventIsAllowed default_options e = true
  /\ posStart s' <> position_of e
  /\ posEnd s' <> position_of e
  /\ callbacks w <> [CallSwipeStart e]
  /\ isPointerDown s' = true.
Proof.
  cbv zeta. repeat split; try reflexivity; vm_compute; discriminate.
Qed.

(** C10, amended. An allowed pointer-down whose capture request returns
    is handled the same in every state, also with a gesture already
    active: both positions become the event's coordinates, so the
    displacement is zero, onSwipeStart is called, the pointer counts as
    down and isSwiping keeps its value. *)
Theorem pointerdown_any_state options e s :
  eventIsAllowed options e = true ->
  captures e = true ->
  let s' := fst (exec (on_pointerdown options e) s) in
  let w := snd (exec (on_pointerdown options e) s) in
  posStart s' = position_of e
  /\ posEnd s' = position_of e
  /\ distanceX s' = 0 /\ distanceY s' = 0
  /\ isSwiping s' = isSwiping s
  /\ isPointerDown s' = true
  /\ callbacks w =
     (if Options.onSwipeStart options then [CallSwipeStart e] else []).
Proof.
  intros Ha Hc. cbv zeta. rewrite exec_pointerdown, Ha, Hc. cbn [fst snd].
  unfold distanceX, distanceY. cbn [posStart posEnd isSwiping isPointerDown].
  repeat split; try lia.
  unfold callbacks, capture_of.
  destruct (target e), (Options.onSwipeStart options); reflexivity.
Qed.

Lemma pointerdown_any_state_witness :
  let e := pointer "mouse" 1 7 9 in
  let s' := fst (exec (on_pointerdown default_options e) swiping_state) in
  let w := snd (exec (on_pointerdown default_options e) swiping_state) in
  posStart s' = position_of e
  /\ posEnd s' = position_of e
  /\ distanceX s' = 0 /\ distanceY s' = 0
  /\ isSwiping s' = true
  /\ isPointerDown s' = true
  /\ callbacks w = [CallSwipeStart e].
Proof.
  exact (pointerdown_any_state default_options (pointer "mouse" 1 7 9)
           swiping_state eq_refl eq_refl).
Defined.

(** ** Pointer-up *)





(** ** Events that do nothing *)

(** C6. A disallowed event of any name, in any state, changes nothing and
    has no effect; so does a pointer-move while no pointer is down; so does
    a pointer-up at a tracker with no gesture in progress, be it any
    tracker with both flags false or any tracker reached from construction
    with no pointer down. *)
Theorem ignored_events options :
  (forall n e tr,
      eventIsAllowed options e = false ->
      step options (Dispatch n e) tr = (tr, []))
  /\ (forall e tr,
         isPointerDown (state tr) = false ->
         step options (Dispatch pointermove e) tr = (tr, []))
  /\ (forall e tr,
         isPointerDown (state tr) = false -> isSwiping (state tr) = false ->
         step options (Dispatch pointerup e) tr = (tr, []))
  /\ (forall inputs e,
         let tr := fst (run options inputs usePointerSwipe) in
         isPointerDown (state tr) = false ->
         step options (Dispatch pointerup e) tr = (tr, [])).
Proof.
  assert (Hup : forall e tr,
             isPointerDown (state tr) = false -> isSwiping (state tr) = false ->
             step options (Dispatch pointerup e) tr = (tr, [])).
  { intros e tr Hd Hs. cbn [step]. apply dispatch_noop. cbn [handler].
    rewrite exec_pointerup. destruct (eventIsAllowed options e); [|reflexivity].
    rewrite Hs. cbn [andb]. destruct (state tr) as [ps pe sw pd].
    cbn in *. now subst. }
  split; [|split; [|split]].
  - intros n e tr Hd. cbn [step]. apply dispatch_noop.
    now apply exec_disallowed.
  - intros e tr Hd. cbn [step]. apply dispatch_noop. cbn [handler].
    rewrite exec_pointermove, Hd. now rewrite andb_false_r.
  - exact Hup.
  - intros inputs e tr Hd. apply Hup; [exact Hd|].
    pose proof (run_swiping_is_down options inputs usePointerSwipe
                  usePointerSwipe_swiping_is_down) as Hinv.
    fold tr in Hinv. unfold swiping_is_down in Hinv.
    destruct (isSwiping (state tr)); [|reflexivity].
    rewrite Hinv in Hd by reflexivity. discriminate.
Qed.

Lemma ignored_events_witness :
  step touch_only (Dispatch pointerdown (press 5 5)) usePointerSwipe
  = (usePointerSwipe, [])
  /\ step default_options (Dispatch pointermove (press 90 0)) usePointerSwipe
     = (usePointerSwipe, [])
  /\ step default_options (Dispatch pointerup (release 90 0)) usePointerSwipe
     = (usePointerSwipe, [])
  /\ (let tr := fst (run default_options
                       [Dispatch pointerdown (press 0 0);
                        Dispatch pointerup (release 0 0)] usePointerSwipe) in
      step default_options (Dispatch pointerup (release 3 3)) tr = (tr, [])).
Proof.
  destruct (ignored_events touch_only) as (Hdis & _).
  destruct (ignored_events default_options) as (_ & Hmove & Hup & Hreach).
  split; [|split; [|split]].
  - apply Hdis. reflexivity.
  - apply Hmove. reflexivity.
  - apply Hup; reflexivity.
  - apply (Hreach [Dispatch pointerdown (press 0 0);
                   Dispatch pointerup (release 0 0)]). reflexivity.
Defined.

(** ** Whole gestures *)

Lemma usePointerSwipe_all_attached : all_attached usePointerSwipe.
Proof. intros n. destruct n; cbn; auto. Qed.

Lemma run_cons options i rest tr :
  run options (i :: rest) tr =
  (fst (run options rest (fst (step options i tr))),
   snd (step options i tr) ++ snd (run options rest (fst (step options i tr)))).
Proof.
  cbn [run]. destruct (step options i tr) as [tr1 w1]. cbn [fst snd].
  now destruct (run options rest tr1).
Qed.

Lemma run_app_pair options a b tr :
  run options (a ++ b) tr =
  (fst (run options b (fst (run options a tr))),
   snd (run options a tr) ++ snd (run options b (fst (run options a tr)))).
Proof.
  rewrite run_app. destruct (run options a tr) as [tr1 w1]. cbn [fst snd].
  now destruct (run options b tr1).
Qed.

Lemma visited_app options a b tr :
  visited options (a ++ b) tr =
  visited options a tr ++ visited options b (fst (run options a tr)).
Proof.
  revert tr. induction a as [|i a IH]; intros tr; [reflexivity|].
  cbn [app visited]. rewrite IH, run_cons. reflexivity.
Qed.

Lemma step_pointerdown options e tr :
  all_attached tr -> eventIsAllowed options e = true -> captures e = true ->
  step options (Dispatch pointerdown e) tr =
  ({| state := {| posStart := position_of e; posEnd := position_of e;
                  isSwiping := isSwiping (state tr); isPointerDown := true |};
      listeners := listeners tr |},
   capture_of e ++
   (if Options.onSwipeStart options then [CallSwipeStart e] else [])).
Proof.
  intros Hl Ha Hc. cbn [step]. rewrite dispatch_attached by apply Hl.
  cbn [handler]. now rewrite exec_pointerdown, Ha, Hc.
Qed.

Lemma step_pointermove options e tr :
  all_attached tr -> eventIsAllowed options e = true ->
  isPointerDown (state tr) = true ->
  step options (Dispatch pointermove e) tr =
  let swiping := isSwiping (state tr) || meets options (posStart (state tr)) e in
  ({| state := {| posStart := posStart (state tr); posEnd := position_of e;
                  isSwiping := swiping; isPointerDown := true |};
      listeners := listeners tr |},
   if swiping && Options.onSwipe options then [CallSwipe e] else []).
Proof.
  intros Hl Ha Hd. cbn [step]. rewrite dispatch_attached by apply Hl.
  cbn [handler]. rewrite exec_pointermove, Ha, Hd. reflexivity.
Qed.

Lemma step_pointerup options e tr :
  all_attached tr -> eventIsAllowed options e = true ->
  step options (Dispatch pointerup e) tr =
  ({| state := {| posStart := posStart (state tr); posEnd := posEnd (state tr);
                  isSwiping := false; isPointerDown := false |};
      listeners := listeners tr |},
   if isSwiping (state tr) && Options.onSwipeEnd options
   then [CallSwipeEnd e (direction options (state tr))] else []).
Proof.
  intros Hl Ha. cbn [step]. rewrite dispatch_attached by apply Hl.
  cbn [handler]. now rewrite exec_pointerup, Ha.
Qed.

Lemma last_default {A} (a : A) l d d' : last (a :: l) d = last (a :: l) d'.
Proof.
  revert a. induction l as [|b l IH]; intros a; [reflexivity|].
  cbn [last] in *. apply IH.
Qed.

(** Moves that stay below the threshold: no effect, not swiping. *)
Lemma run_moves_below options pre : forall tr,
  all_attached tr ->
  isPointerDown (state tr) = true -> isSwiping (state tr) = false ->
  Forall (fun e => eventIsAllowed options e = true) pre ->
  Forall (fun e => meets options (posStart (state tr)) e = false) pre ->
  let inputs := map (Dispatch pointermove) pre in
  let tr' := fst (run options inputs tr) in
  snd (run options inputs tr) = []
  /\ swiping_after options inputs tr = repeat false (List.length pre)
  /\ all_attached tr' /\ listeners tr' = listeners tr
  /\ posStart (state tr') = posStart (state tr)
  /\ isSwiping (state tr') = false /\ isPointerDown (state tr') = true.
Proof.
  induction pre as [|e pre IH]; intros tr Hl Hd Hs Hall Hbelow; cbv zeta.
  - cbn. repeat split; assumption.
  - inversion Hall as [|? ? Ha Hall']; subst.
    inversion Hbelow as [|? ? Hb Hbelow']; subst.
    cbn [map]. rewrite run_cons. unfold swiping_after. cbn [visited map List.length repeat].
    rewrite (step_pointermove options e tr Hl Ha Hd). cbv zeta.
    rewrite Hs, Hb. cbn [orb andb fst snd app].
    set (tr1 := {| state := _; listeners := listeners tr |}).
    destruct (IH tr1) as (Hw & Hv & Hl' & Hls & Hps & Hs' & Hd');
      try reflexivity; try assumption.
    repeat split; try assumption.
    cbn [state isSwiping]. f_equal. exact Hv.
Qed.

(** Moves while swiping: onSwipe at each, still swiping. *)
Lemma run_moves_swiping options post : forall tr,
  all_attached tr ->
  isPointerDown (state tr) = true -> isSwiping (state tr) = true ->
  Forall (fun e => eventIsAllowed options e = true) post ->
  let inputs := map (Dispatch pointermove) post in
  let tr' := fst (run options inputs tr) in
  snd (run options inputs tr) =
    (if Options.onSwipe options then map CallSwipe post else [])
  /\ swiping_after options inputs tr = repeat true (List.length post)
  /\ all_attached tr' /\ listeners tr' = listeners tr
  /\ posStart (state tr') = posStart (state tr)
  /\ posEnd (state tr') = last (map position_of post) (posEnd (state tr))
  /\ isSwiping (state tr') = true /\ isPointerDown (state tr') = true.
Proof.
  induction post as [|e post IH]; intros tr Hl Hd Hs Hall; cbv zeta.
  - cbn. repeat split; try assumption. now destruct (Options.onSwipe options).
  - inversion Hall as [|? ? Ha Hall']; subst.
    cbn [map]. rewrite run_cons. unfold swiping_after. cbn [visited map List.length repeat].
    rewrite (step_pointermove options e tr Hl Ha Hd). cbv zeta.
    rewrite Hs. cbn [orb andb fst snd].
    set (tr1 := {| state := _; listeners := listeners tr |}).
    destruct (IH tr1) as (Hw & Hv & Hl' & Hls & Hps & Hpe & Hs' & Hd');
      try reflexivity; try assumption.
    repeat split; try assumption.
    + rewrite Hw. now destruct (Options.onSwipe options).
    + cbn [state isSwiping]. f_equal. exact Hv.
    + rewrite Hpe. cbn [state posEnd].
      destruct post as [|e' post']; [reflexivity|].
      cbn [map last]. apply last_default.
Qed.

(** A gesture whose move [m] is the first to meet the threshold. *)
Lemma gesture_run options e0 pre m post eu tr :
  all_attached tr -> isSwiping (state tr) = false ->
  eventIsAllowed options e0 = true -> captures e0 = true ->
  Forall (fun e => eventIsAllowed options e = true) (pre ++ m :: post) ->
  eventIsAllowed options eu = true ->
  Forall (fun e => meets options (position_of e0) e = false) pre ->
  meets options (position_of e0) m = true ->
  let inputs := gesture e0 (pre ++ m :: post) eu in
  snd (run options inputs tr) =
    capture_of e0
    ++ (if Options.onSwipeStart options then [CallSwipeStart e0] else [])
    ++ (if Options.onSwipe options then map CallSwipe (m :: post) else [])
    ++ (if Options.onSwipeEnd options
        then [CallSwipeEnd eu (direction options (at_pointerup e0 m post))]
        else [])
  /\ swiping_after options inputs tr =
     false :: repeat false (List.length pre)
     ++ repeat true (S (List.length post)) ++ [false]
  /\ state (fst (run options inputs tr)) =
     {| posStart := position_of e0;
        posEnd := last (map position_of post) (position_of m);
        isSwiping := false; isPointerDown := false |}.
Proof.
  intros Hl Hs Ha0 Hc0 Hall Hau Hbelow Hm. cbv zeta.
  apply Forall_app in Hall as [Hpre Hmp].
  inversion Hmp as [|? ? Ham Hpost]; subst.
  unfold gesture, swiping_after.
  rewrite run_cons. cbn [visited].
  rewrite (step_pointerdown options e0 tr Hl Ha0 Hc0). cbn [fst snd].
  set (tr0 := {| state := _; listeners := listeners tr |}).
  assert (Hl0 : all_attached tr0) by exact Hl.
  rewrite map_app. cbn [map].
  rewrite !run_app_pair, !visited_app, !run_app_pair. cbn [fst snd].
  destruct (run_moves_below options pre tr0 Hl0 eq_refl Hs Hpre Hbelow)
    as (Hw1 & Hv1 & Hl1 & _ & Hps1 & Hs1 & Hd1).
  set (tr1 := fst (run options (map (Dispatch pointermove) pre) tr0)) in *.
  unfold swiping_after in Hv1. rewrite Hw1.
  rewrite !run_cons. cbn [visited].
  rewrite (step_pointermove options m tr1 Hl1 Ham Hd1). cbv zeta.
  rewrite Hs1, Hps1.
  change (posStart (state tr0)) with (position_of e0). rewrite Hm.
  cbn [orb andb fst snd].
  set (tr2 := {| state := _; listeners := listeners tr1 |}).
  assert (Hl2 : all_attached tr2) by exact Hl1.
  destruct (run_moves_swiping options post tr2 Hl2 eq_refl eq_refl Hpost)
    as (Hw3 & Hv3 & Hl3 & _ & Hps3 & Hpe3 & Hs3 & Hd3).
  set (tr3 := fst (run options (map (Dispatch pointermove) post) tr2)) in *.
  unfold swiping_after in Hv3. rewrite Hw3.
  cbn [run].
  rewrite (step_pointerup options eu tr3 Hl3 Hau). cbn [fst snd].
  rewrite Hs3, Hps3, Hpe3. cbn [andb state posStart posEnd isSwiping tr2].
  assert (Hdir : direction options (state tr3)
                 = direction options (at_pointerup e0 m post)).
  { unfold direction, isThresholdExceeded, distanceX, distanceY.
    rewrite Hps3, Hpe3. reflexivity. }
  rewrite Hdir. split; [|split].
  - rewrite app_nil_r. cbn [app]. rewrite <- app_assoc. do 2 f_equal.
    destruct (Options.onSwipe options); reflexivity.
  - cbn [map state isSwiping]. rewrite !map_app, Hv1. cbn [map].
    rewrite Hv3. cbn [state isSwiping map repeat app].
    change (isSwiping (state tr0)) with (isSwiping (state tr)). rewrite Hs.
    rewrite <- !app_assoc. reflexivity.
  - reflexivity.
Qed.

Lemma callbacks_app a b : callbacks (a ++ b) = callbacks a ++ callbacks b.
Proof. apply filter_app. Qed.

Lemma callbacks_capture e : callbacks (capture_of e) = [].
Proof. unfold capture_of. now destruct (target e). Qed.

Lemma callbacks_swipes l : callbacks (map CallSwipe l) = map CallSwipe l.
Proof.
  induction l as [|e l IH]; [reflexivity|].
  cbn [map]. change (callbacks (?a :: ?r)) with (a :: callbacks r) at 1.
  now rewrite IH.
Qed.

Lemma isThresholdExceeded_meets options s e :
  posEnd s = position_of e ->
  isThresholdExceeded options s = meets options (posStart s) e.
Proof.
  intros He. unfold meets, isThresholdExceeded, distanceX, distanceY.
  cbn [posStart posEnd]. now rewrite He.
Qed.

(** ** Pointer-move *)

(** C4 as stated fails in its last part: the pointer-down of a gesture
    is allowed and its [setPointerCapture] throws, so the handler stops
    before onSwipeStart. The moves are then measured from the old start,
    and the gesture, which meets the threshold, produces an onSwipe and an
    onSwipeEnd and no onSwipeStart. *)
Lemma pointermove_swipe_counterexample :
  let e0 := synthetic 200 200 in
  let m := press 290 209 in
  let eu := release 290 209 in
  eventIsAllowed default_options e0 = true
  /\ eventIsAllowed default_options m = true
  /\ eventIsAllowed default_options eu = true
  /\ meets default_options (position_of e0) m = true
  /\ callbacks (snd (run default_options (gesture e0 [m] eu) usePointerSwipe))
     = [CallSwipe m; CallSwipeEnd eu Direction.right]
  /\ count is_swipe_start
       (snd (run default_options (gesture e0 [m] eu) usePointerSwipe)) = 0%nat.
Proof.
  cbv zeta. repeat split; reflexivity.
Qed.

(** C4, amended. An allowed pointer-move with a pointer down stores the
    event's coordinates in posEnd and leaves posStart alone; if the tracker
    was not swiping it is swiping afterwards exactly when the threshold is
    now met, and if it was swiping it stays so; onSwipe is called exactly
    when the tracker is swiping after the update, which includes the move
    that first meets the threshold. Over a gesture whose pointer-down
    handler completes (its capture request returns) and whose move [m] is
    the first to meet the threshold, isSwiping is false up to [m], true
    from [m] to the last move and false after the pointer-up, and the
    callbacks are one onSwipeStart, an onSwipe for [m] and for each later
    move, and one onSwipeEnd, in that order. *)
Theorem pointermove_swipe options :
  (forall e s,
      eventIsAllowed options e = true -> isPointerDown s = true ->
      let s' := fst (exec (on_pointermove options e) s) in
      let w := snd (exec (on_pointermove options e) s) in
      posEnd s' = position_of e /\ posStart s' = posStart s
      /\ isPointerDown s' = true
      /\ (isSwiping s = false ->
          (isSwiping s' = true <->
           threshold options
           <= Z.max (Z.abs (distanceX s')) (Z.abs (distanceY s'))))
      /\ (isSwiping s = true -> isSwiping s' = true)
      /\ w = (if isSwiping s' && Options.onSwipe options
              then [CallSwipe e] else []))
  /\ (forall e0 pre m post eu tr,
         all_attached tr -> isSwiping (state tr) = false ->
         Options.onSwipeStart options = true ->
         Options.onSwipe options = true ->
         Options.onSwipeEnd options = true ->
         eventIsAllowed options e0 = true -> captures e0 = true ->
         Forall (fun e => eventIsAllowed options e = true) (pre ++ m :: post) ->
         eventIsAllowed options eu = true ->
         Forall (fun e => meets options (position_of e0) e = false) pre ->
         meets options (position_of e0) m = true ->
         let inputs := gesture e0 (pre ++ m :: post) eu in
         callbacks (snd (run options inputs tr)) =
           CallSwipeStart e0 :: map CallSwipe (m :: post)
           ++ [CallSwipeEnd eu (direction options (at_pointerup e0 m post))]
         /\ swiping_after options inputs tr =
            false :: repeat false (List.length pre)
            ++ repeat true (S (List.length post)) ++ [false]).
Proof.
  split.
  - intros e s Ha Hd. cbv zeta. rewrite exec_pointermove, Ha, Hd.
    cbn [andb fst snd posStart posEnd isSwiping isPointerDown].
    split; [reflexivity|]. split; [reflexivity|]. split; [reflexivity|].
    split; [|split; [|reflexivity]].
    + intros Hs. rewrite Hs. cbn [orb].
      rewrite <- isThresholdExceeded_true. reflexivity.
    + intros Hs. now rewrite Hs.
  - intros e0 pre m post eu tr Hl Hs Hc1 Hc2 Hc3 Ha0 Hc0 Hall Hau Hbelow Hm.
    destruct (gesture_run options e0 pre m post eu tr
                Hl Hs Ha0 Hc0 Hall Hau Hbelow Hm) as (Hw & Hv & _).
    cbv zeta. split; [|exact Hv].
    rewrite Hw, Hc1, Hc2, Hc3.
    rewrite !callbacks_app, callbacks_capture, callbacks_swipes.
    reflexivity.
Qed.

Lemma pointermove_swipe_witness :
  (let s := ledger 0 0 0 0 in
   let e := press 50 0 in
   isSwiping (fst (exec (on_pointermove default_options e) s)) = true
   /\ snd (exec (on_pointermove default_options e) s) = [CallSwipe e])
  /\ callbacks
       (snd (run default_options
               (gesture (press 0 0) [press 20 0; press 60 0; press 90 5]
                  (release 90 5)) usePointerSwipe))
     = [CallSwipeStart (press 0 0); CallSwipe (press 60 0);
        CallSwipe (press 90 5); CallSwipeEnd (release 90 5) Direction.right].
Proof.
  destruct (pointermove_swipe default_options) as [Hstep Hgesture]. split.
  - destruct (Hstep (press 50 0) (ledger 0 0 0 0) eq_refl eq_refl)
      as (_ & _ & _ & Hfirst & _ & Hw).
    cbv zeta. split.
    + apply Hfirst; [reflexivity | vm_compute; discriminate].
    + rewrite Hw. reflexivity.
  - refine (proj1 (Hgesture (press 0 0) [press 20 0] (press 60 0)
                     [press 90 5] (release 90 5) usePointerSwipe
                     usePointerSwipe_all_attached eq_refl eq_refl eq_refl
                     eq_refl eq_refl eq_refl _ eq_refl _ eq_refl));
      repeat constructor.
Defined.

(** ** Hysteresis *)

Lemma position_of_last post m :
  last (map position_of post) (position_of m) = position_of (last post m).
Proof.
  revert m. induction post as [|e post IH]; intros m; [reflexivity|].
  cbn [map]. destruct post as [|e' post']; [reflexivity|].
  cbn [map last] in *. apply (IH m).
Qed.

(** C9. A move never clears isSwiping. At an allowed pointer-up of a
    swiping tracker whose displacement is below the threshold, onSwipeEnd
    is called with ['none']. So a gesture whose pointer-down recorded its
    start, that met the threshold at some move and whose last move is back
    below it still ends with onSwipeEnd(event, 'none'). *)
Theorem swiping_survives_return options :
  (forall e s,
      isSwiping s = true ->
      isSwiping (fst (exec (on_pointermove options e) s)) = true)
  /\ (forall e s,
         eventIsAllowed options e = true -> isSwiping s = true ->
         Options.onSwipeEnd options = true ->
         Z.max (Z.abs (distanceX s)) (Z.abs (distanceY s)) < threshold options ->
         snd (exec (on_pointerup options e) s) = [CallSwipeEnd e Direction.none])
  /\ (forall e0 pre m post eu tr,
         all_attached tr -> isSwiping (state tr) = false ->
         Options.onSwipeEnd options = true ->
         eventIsAllowed options e0 = true -> captures e0 = true ->
         Forall (fun e => eventIsAllowed options e = true) (pre ++ m :: post) ->
         eventIsAllowed options eu = true ->
         Forall (fun e => meets options (position_of e0) e = false) pre ->
         meets options (position_of e0) m = true ->
         meets options (position_of e0) (last post m) = false ->
         exists w,
           snd (run options (gesture e0 (pre ++ m :: post) eu) tr)
           = w ++ [CallSwipeEnd eu Direction.none]
           /\ Forall (fun f => is_swipe_end f = false) w).
Proof.
  split; [|split].
  - intros e s Hs. rewrite exec_pointermove.
    destruct (eventIsAllowed options e && isPointerDown s); cbn [fst]; [|exact Hs].
    cbn [isSwiping]. now rewrite Hs.
  - intros e s Ha Hs Hc Hlt. rewrite exec_pointerup, Ha, Hs, Hc. cbn [snd andb].
    apply isThresholdExceeded_false in Hlt.
    now rewrite (direction_below options s Hlt).
  - intros e0 pre m post eu tr Hl Hs Hc Ha0 Hc0 Hall Hau Hbelow Hm Hback.
    destruct (gesture_run options e0 pre m post eu tr
                Hl Hs Ha0 Hc0 Hall Hau Hbelow Hm) as (Hw & _ & _).
    cbv zeta in Hw. rewrite Hw, Hc.
    assert (Hnone : direction options (at_pointerup e0 m post) = Direction.none).
    { apply direction_below.
      rewrite (isThresholdExceeded_meets options _ (last post m))
        by apply position_of_last.
      exact Hback. }
    rewrite Hnone, !app_assoc. eexists. split; [reflexivity|].
    apply Forall_app. split; [apply Forall_app; split|].
    + unfold capture_of. destruct (target e0); repeat constructor.
    + destruct (Options.onSwipeStart options); repeat constructor.
    + destruct (Options.onSwipe options); [|constructor].
      apply Forall_forall. intros f Hin. apply in_map_iff in Hin.
      destruct Hin as (e & <- & _). reflexivity.
Qed.

Lemma swiping_survives_return_witness :
  let back := state (fst (run default_options
                            [Dispatch pointerdown (press 0 0);
                             Dispatch pointermove (press 100 0);
                             Dispatch pointermove (press 10 0)]
                            usePointerSwipe)) in
  isSwiping back = true
  /\ snd (exec (on_pointerup default_options (release 10 0)) back)
     = [CallSwipeEnd (release 10 0) Direction.none]
  /\ exists w,
      snd (run default_options
             (gesture (press 0 0) [press 100 0; press 10 0] (release 10 0))
             usePointerSwipe)
      = w ++ [CallSwipeEnd (release 10 0) Direction.none]
      /\ Forall (fun f => is_swipe_end f = false) w.
Proof.
  destruct (swiping_survives_return default_options) as (Hmove & Hup & Hgesture).
  cbv zeta. split; [|split].
  - apply (Hmove (press 10 0)
             (state (fst (run default_options
                            [Dispatch pointerdown (press 0 0);
                             Dispatch pointermove (press 100 0)]
                            usePointerSwipe)))).
    reflexivity.
  - apply Hup; reflexivity.
  - refine (Hgesture (press 0 0) [] (press 100 0) [press 10 0] (release 10 0)
              usePointerSwipe usePointerSwipe_all_attached eq_refl eq_refl
              eq_refl eq_refl _ eq_refl _ eq_refl eq_refl);
      repeat constructor.
Defined.

(** ** Disposal *)

Lemma stop_listeners tr : listeners (stop tr) = [].
Proof.
  unfold stop. cbn.
  set (l := remove _ _ (remove _ _ (remove _ _ (listeners tr)))).
  assert (Hn : forall n, ~ In n l).
  { intros n Hin. unfold l in Hin.
    destruct n.
    - apply in_remove in Hin as [Hin _].
      apply in_remove in Hin as [Hin _].
      now apply remove_In in Hin.
    - apply in_remove in Hin as [Hin _].
      now apply remove_In in Hin.
    - now apply remove_In in Hin. }
  destruct l as [|n l']; [reflexivity|].
  exfalso. apply (Hn n). now left.
Qed.

Lemma step_detached options i tr :
  listeners tr = [] ->
  snd (step options i tr) = []
  /\ state (fst (step options i tr)) = state tr
  /\ listeners (fst (step options i tr)) = [].
Proof.
  intros Hl. destruct i as [n e|]; cbn [step fst snd].
  - rewrite dispatch_detached by (rewrite Hl; intros []). now cbn.
  - repeat split. apply stop_listeners.
Qed.

Lemma run_detached options inputs : forall tr,
  listeners tr = [] ->
  snd (run options inputs tr) = []
  /\ state (fst (run options inputs tr)) = state tr.
Proof.
  induction inputs as [|i rest IH]; intros tr Hl; [now cbn|].
  rewrite run_cons. cbn [fst snd].
  destruct (step_detached options i tr Hl) as (Hw & Hs & Hl1).
  destruct (IH _ Hl1) as (Hw' & Hs').
  rewrite Hw, Hw', Hs', Hs. now split.
Qed.

(** C7. [stop] itself calls nothing, so a gesture in progress gets no
    onSwipeEnd; after it no input has any effect, whatever pointer events
    are dispatched to the target, and the effects of a history with a
    [stop] in it are those of the part before the [stop]. *)
Theorem no_callbacks_after_stop options tr inputs :
  snd (step options Stop tr) = []
  /\ snd (run options inputs (fst (step options Stop tr))) = []
  /\ callbacks (snd (run options (Stop :: inputs) tr)) = []
  /\ (forall before,
        snd (run options (before ++ Stop :: inputs) tr)
        = snd (run options before tr)).
Proof.
  assert (Hafter : forall t, snd (run options (Stop :: inputs) t) = []).
  { intros t. rewrite run_cons. cbn [step fst snd app].
    apply run_detached, stop_listeners. }
  split; [reflexivity|]. split; [|split].
  - cbn [step fst]. apply run_detached, stop_listeners.
  - now rewrite Hafter.
  - intros before. rewrite run_app_pair. cbn [snd].
    now rewrite Hafter, app_nil_r.
Qed.

(** C8 as stated fails: after a pointer-down at (0,0) and a move to (100,0)
    the tracker is swiping, and it still is after [stop]; the state is not
    the one the tracker was constructed with. *)
Lemma stop_resets_state_counterexample :
  let tr := fst (run default_options
                   [Dispatch pointerdown (press 0 0);
                    Dispatch pointermove (press 100 0)] usePointerSwipe) in
  isSwiping (state tr) = true
  /\ isSwiping (state (fst (step default_options Stop tr))) <> false
  /\ state (fst (step default_options Stop tr)) <> state usePointerSwipe.
Proof.
  cbv zeta. split; [reflexivity|]. split; vm_compute; discriminate.
Qed.

(** C8, amended. [stop] detaches the three listeners and leaves the state
    as it is: posStart, posEnd, isSwiping and isPointerDown keep their
    values. *)
Theorem stop_keeps_state options tr :
  state (fst (step options Stop tr)) = state tr
  /\ listeners (fst (step options Stop tr)) = [].
Proof.
  cbn [step fst]. split; [reflexivity | apply stop_listeners].
Qed.

(** * Further properties *)

(** ** The four directions *)

(** X1. Each direction has one cause. ['left'] and ['right'] need the
    threshold met and |distanceX| strictly above |distanceY|, and are told
    apart by the sign of distanceX, which is then not zero; ['up'] and
    ['down'] need the threshold met and |distanceX| at most |distanceY|, and
    ['down'] is also the answer for a distanceY of zero. *)
Theorem direction_cases options s :
  let dx := distanceX s in
  let dy := distanceY s in
  let met := threshold options <= Z.max (Z.abs dx) (Z.abs dy) in
  (direction options s = Direction.left <->
   met /\ Z.abs dy < Z.abs dx /\ 0 < dx)
  /\ (direction options s = Direction.right <->
      met /\ Z.abs dy < Z.abs dx /\ dx < 0)
  /\ (direction options s = Direction.up <->
      met /\ Z.abs dx <= Z.abs dy /\ 0 < dy)
  /\ (direction options s = Direction.down <->
      met /\ Z.abs dx <= Z.abs dy /\ dy <= 0).
Proof.
  cbv zeta.
  destruct (isThresholdExceeded options s) eqn:He.
  - pose proof (proj1 (isThresholdExceeded_true options s) He) as Hmet.
    destruct (Z_lt_le_dec (Z.abs (distanceY s)) (Z.abs (distanceX s)))
      as [Hh | Hv].
    + rewrite (direction_horizontal options s He Hh).
      destruct (distanceX s >? 0) eqn:Hx.
      * apply Z.gtb_lt in Hx.
        repeat split; try discriminate; try lia;
          intros (_ & H1 & H2); lia.
      * assert (distanceX s <= 0)
          by (destruct (Z_lt_le_dec 0 (distanceX s)) as [Hp|]; [|assumption];
              apply Z.gtb_lt in Hp; congruence).
        repeat split; try discriminate; try lia;
          intros (_ & H1 & H2); lia.
    + rewrite (direction_vertical options s He Hv).
      destruct (distanceY s >? 0) eqn:Hy.
      * apply Z.gtb_lt in Hy.
        repeat split; try discriminate; try lia;
          intros (_ & H1 & H2); lia.
      * assert (distanceY s <= 0)
          by (destruct (Z_lt_le_dec 0 (distanceY s)) as [Hp|]; [|assumption];
              apply Z.gtb_lt in Hp; congruence).
        repeat split; try discriminate; try lia;
          intros (_ & H1 & H2); lia.
  - pose proof (proj1 (isThresholdExceeded_false options s) He) as Hlt.
    rewrite (direction_below options s He).
    repeat split; try discriminate; intros (Hmet & _); lia.
Qed.

Lemma distance_reversed s :
  distanceX (reversed s) = - distanceX s
  /\ distanceY (reversed s) = - distanceY s.
Proof. unfold distanceX, distanceY, reversed. cbn. lia. Qed.

(** X2. With a positive threshold, exchanging start and end turns the
    direction into its opposite: left and right, up and down change places
    and ['none'] stays. *)
Theorem direction_reversed options s :
  0 < threshold options ->
  direction options (reversed s) = opposite (direction options s).
Proof.
  intros Hpos. destruct (distance_reversed s) as [Hx Hy].
  destruct (isThresholdExceeded options s) eqn:He.
  - pose proof (proj1 (isThresholdExceeded_true options s) He) as Hmet.
    assert (He' : isThresholdExceeded options (reversed s) = true)
      by (apply isThresholdExceeded_true; rewrite Hx, Hy, !Z.abs_opp;
          exact Hmet).
    destruct (Z_lt_le_dec (Z.abs (distanceY s)) (Z.abs (distanceX s)))
      as [Hh | Hv].
    + rewrite (direction_horizontal options s He Hh).
      rewrite (direction_horizontal options (reversed s) He')
        by (rewrite Hx, Hy, !Z.abs_opp; exact Hh).
      rewrite Hx.
      destruct (distanceX s >? 0) eqn:H1; destruct (- distanceX s >? 0) eqn:H2;
        try reflexivity; exfalso;
        rewrite ?Z.gtb_ltb, ?Z.ltb_lt, ?Z.ltb_ge in H1, H2; lia.
    + rewrite (direction_vertical options s He Hv).
      rewrite (direction_vertical options (reversed s) He')
        by (rewrite Hx, Hy, !Z.abs_opp; exact Hv).
      rewrite Hy.
      destruct (distanceY s >? 0) eqn:H1; destruct (- distanceY s >? 0) eqn:H2;
        try reflexivity; exfalso;
        rewrite ?Z.gtb_ltb, ?Z.ltb_lt, ?Z.ltb_ge in H1, H2; lia.
  - pose proof (proj1 (isThresholdExceeded_false options s) He) as Hlt.
    rewrite (direction_below options s He).
    apply direction_below, isThresholdExceeded_false.
    now rewrite Hx, Hy, !Z.abs_opp.
Qed.

Lemma direction_reversed_witness :
  direction default_options (reversed (ledger 0 0 10 70)) = Direction.up.
Proof.
  exact (direction_reversed default_options (ledger 0 0 10 70) eq_refl).
Defined.

(** X3. A threshold of zero or less is always met: the direction is never
    ['none'], it is ['down'] for a pointer that has not moved at all, and
    the first allowed move with a pointer down starts the swipe, wherever
    it goes. *)
Theorem nonpositive_threshold options :
  threshold options <= 0 ->
  (forall s, direction options s <> Direction.none)
  /\ (forall s, distanceX s = 0 -> distanceY s = 0 ->
        direction options s = Direction.down)
  /\ (forall e s,
         eventIsAllowed options e = true -> isPointerDown s = true ->
         isSwiping (fst (exec (on_pointermove options e) s)) = true).
Proof.
  intros Ht.
  assert (Hall : forall s, isThresholdExceeded options s = true)
    by (intros s; apply isThresholdExceeded_true; lia).
  split; [|split].
  - intros s. apply direction_exceeded_not_none, Hall.
  - intros s Hx Hy. rewrite (direction_vertical options s (Hall s)) by lia.
    now rewrite Hy.
  - intros e s Ha Hd. rewrite exec_pointermove, Ha, Hd.
    cbn [andb fst isSwiping]. rewrite Hall. apply orb_true_r.
Qed.

Lemma nonpositive_threshold_witness :
  direction (options_with (Some 0) None) (ledger 5 5 5 5) = Direction.down
  /\ isSwiping (fst (exec (on_pointermove (options_with (Some 0) None)
                             (press 5 5)) (ledger 5 5 5 5))) = true.
Proof.
  assert (Ht : threshold (options_with (Some 0) None) <= 0)
    by (vm_compute; discriminate).
  destruct (nonpositive_threshold (options_with (Some 0) None) Ht)
    as (_ & Hdown & Hmove).
  split.
  - apply Hdown; reflexivity.
  - apply Hmove; reflexivity.
Defined.

(** ** What every run keeps *)

(** X4. Whatever inputs a freshly constructed tracker receives, pointer
    events in any order and [stop] included, it is never swiping without a
    pointer being down. *)
Theorem swiping_only_while_down options inputs :
  let s := state (fst (run options inputs usePointerSwipe)) in
  isSwiping s = true -> isPointerDown s = true.
Proof.
  exact (run_swiping_is_down options inputs usePointerSwipe
           usePointerSwipe_swiping_is_down).
Qed.

Lemma swiping_only_while_down_witness :
  isPointerDown
    (state (fst (run default_options
                   [Dispatch pointermove (press 9 9);
                    Dispatch pointerdown (press 0 0);
                    Dispatch pointermove (press 0 80)] usePointerSwipe)))
  = true.
Proof.
  exact (swiping_only_while_down default_options
           [Dispatch pointermove (press 9 9);
            Dispatch pointerdown (press 0 0);
            Dispatch pointermove (press 0 80)] eq_refl).
Defined.







(** ** What the handlers leave alone *)

(** X6. The start position is written by a pointer-down and by nothing
    else: any other input leaves posStart as it was. A pointer-up and
    [stop] leave the whole ledger alone, so distanceX, distanceY and the
    direction read after a gesture are those of its last move. *)
Theorem ledger_frame options tr :
  (forall i, (forall e, i <> Dispatch pointerdown e) ->
     posStart (state (fst (step options i tr))) = posStart (state tr))
  /\ (forall i, i = Stop \/ (exists e, i = Dispatch pointerup e) ->
        let s' := state (fst (step options i tr)) in
        posStart s' = posStart (state tr) /\ posEnd s' = posEnd (state tr)
        /\ distanceX s' = distanceX (state tr)
        /\ distanceY s' = distanceY (state tr)
        /\ direction options s' = direction options (state tr)).
Proof.
  assert (Hup : forall e,
             posStart (state (fst (step options (Dispatch pointerup e) tr)))
             = posStart (state tr)
             /\ posEnd (state (fst (step options (Dispatch pointerup e) tr)))
                = posEnd (state tr)).
  { intros e. cbn [step]. unfold dispatch.
    destruct (in_dec EventName_eq_dec pointerup (listeners tr)); [|now split].
    cbn [handler]. rewrite exec_pointerup.
    destruct (eventIsAllowed options e); now split. }
  split.
  - intros i Hnot. destruct i as [n e|]; [|reflexivity].
    destruct n.
    + now destruct (Hnot e).
    + cbn [step]. unfold dispatch.
      destruct (in_dec EventName_eq_dec pointermove (listeners tr));
        [|reflexivity].
      cbn [handler]. rewrite exec_pointermove.
      now destruct (eventIsAllowed options e && isPointerDown (state tr)).
    + apply Hup.
  - intros i Hi. cbv zeta.
    assert (Hs : posStart (state (fst (step options i tr)))
                 = posStart (state tr)
                 /\ posEnd (state (fst (step options i tr)))
                    = posEnd (state tr)).
    { destruct Hi as [-> | [e ->]]; [now split | apply Hup]. }
    destruct Hs as [Hs He].
    unfold direction, isThresholdExceeded, distanceX, distanceY.
    rewrite Hs, He. repeat split.
Qed.

Lemma ledger_frame_witness :
  let tr := fst (run default_options
                   [Dispatch pointerdown (press 0 0);
                    Dispatch pointermove (press 0 90)] usePointerSwipe) in
  posStart (state (fst (step default_options
                          (Dispatch pointermove (press 5 5)) tr)))
  = posStart (state tr)
  /\ direction default_options
       (state (fst (step default_options
                      (Dispatch pointerup (release 300 300)) tr)))
     = Direction.down.
Proof.
  cbv zeta.
  set (tr := fst (run default_options
                    [Dispatch pointerdown (press 0 0);
                     Dispatch pointermove (press 0 90)] usePointerSwipe)).
  destruct (ledger_frame default_options tr) as [Hstart Hup]. split.
  - apply Hstart. intros e. discriminate.
  - destruct (Hup (Dispatch pointerup (release 300 300)))
      as (_ & _ & _ & _ & Hd).
    + right. now exists (release 300 300).
    + rewrite Hd. reflexivity.
Defined.

(** ** Gestures that do not become a swipe *)




(** ** A second pointer-down during a swipe *)

(** X8. A pointer-down that arrives while the tracker is swiping does
    not restart the swipe: the next allowed move calls onSwipe wherever it
    goes, also below the threshold, whether the capture request of the
    pointer-down returned or threw. When it returned, the ledger was reset,
    and with a positive threshold an allowed pointer-up straight after it
    calls onSwipeEnd with ['none']. *)
Theorem pointerdown_while_swiping options e1 s :
  eventIsAllowed options e1 = true -> isSwiping s = true ->
  let s1 := fst (exec (on_pointerdown options e1) s) in
  (forall e2, eventIsAllowed options e2 = true ->
     Options.onSwipe options = true ->
     snd (exec (on_pointermove options e2) s1) = [CallSwipe e2])
  /\ (forall e3, eventIsAllowed options e3 = true ->
        Options.onSwipeEnd options = true -> 0 < threshold options ->
        captures e1 = true ->
        snd (exec (on_pointerup options e3) s1)
        = [CallSwipeEnd e3 Direction.none]).
Proof.
  intros Ha1 Hs. cbv zeta. rewrite exec_pointerdown, Ha1.
  split.
  - intros e2 Ha2 Hc. rewrite exec_pointermove, Ha2.
    destruct (captures e1); cbn [fst andb snd isSwiping isPointerDown];
      now rewrite Hs, Hc.
  - intros e3 Ha3 Hc Hpos Hcap. rewrite Hcap. cbn [fst].
    rewrite exec_pointerup, Ha3.
    cbn [snd isSwiping]. rewrite Hs, Hc. cbn [andb].
    rewrite direction_below; [reflexivity|].
    apply isThresholdExceeded_false. unfold distanceX, distanceY.
    cbn [posStart posEnd]. rewrite !Z.sub_diag. cbn. lia.
Qed.

Lemma pointerdown_while_swiping_witness :
  (let s1 := fst (exec (on_pointerdown default_options (press 40 40))
                    swiping_state) in
   snd (exec (on_pointermove default_options (press 41 40)) s1)
   = [CallSwipe (press 41 40)]
   /\ snd (exec (on_pointerup default_options (release 40 40)) s1)
      = [CallSwipeEnd (release 40 40) Direction.none])
  /\ (let s1 := fst (exec (on_pointerdown default_options (synthetic 40 40))
                       swiping_state) in
      snd (exec (on_pointermove default_options (press 41 40)) s1)
      = [CallSwipe (press 41 40)]).
Proof.
  destruct (pointerdown_while_swiping default_options (press 40 40)
              swiping_state eq_refl eq_refl) as [Hmove Hup].
  destruct (pointerdown_while_swiping default_options (synthetic 40 40)
              swiping_state eq_refl eq_refl) as [Hmove' _].
  split; [split|].
  - apply Hmove; reflexivity.
  - apply Hup; reflexivity.
  - apply Hmove'; reflexivity.
Defined.

(** ** An empty allow-list *)

Lemma empty_list_disallows options e :
  Options.pointerTypes options = Some [] -> eventIsAllowed options e = false.
Proof.
  intros Hp. now rewrite (eventIsAllowed_list options e [] Hp).
Qed.

(** X9. With [pointerTypes: []] no event is allowed, so the tracker is
    inert: whatever the inputs, no effect happens and the state stays as
    it was. *)
Theorem empty_allow_list_inert options inputs tr :
  Options.pointerTypes options = Some [] ->
  snd (run options inputs tr) = []
  /\ state (fst (run options inputs tr)) = state tr.
Proof.
  intros Hp. revert tr. induction inputs as [|i rest IH]; intros tr.
  - now cbn.
  - rewrite run_cons. cbn [fst snd].
    destruct (IH (fst (step options i tr))) as [Hw Hs]. rewrite Hw, Hs.
    destruct i as [n e|]; cbn [step fst snd]; [|now split].
    rewrite (dispatch_noop options n e tr)
      by (apply exec_disallowed, empty_list_disallows, Hp).
    now split.
Qed.

Lemma empty_allow_list_inert_witness :
  snd (run (options_with None (Some []))
         (gesture (press 0 0) [press 99 0] (release 99 0)) usePointerSwipe)
  = [].
Proof.
  exact (proj1 (empty_allow_list_inert (options_with None (Some []))
                  (gesture (press 0 0) [press 99 0] (release 99 0))
                  usePointerSwipe eq_refl)).
Defined.

(** ** unrefElement *)

(** X10. [unrefElement] never loses a target: its result is [null] or
    [undefined] only when the unwrapped argument is. A component instance
    gives its [$el] when that is set, and the instance itself, not [null],
    when its [$el] is [null] or [undefined]; DOM elements, [null] and
    [undefined] come back unchanged. *)
Theorem unrefElement_keeps_target elRef :
  is_nullish (unrefElement elRef) = is_nullish (toValue elRef)
  /\ (forall el, toValue elRef = VueInstance el ->
        unrefElement elRef = if is_nullish el then VueInstance el else el)
  /\ ((forall el, toValue elRef <> VueInstance el) ->
      unrefElement elRef = toValue elRef).
Proof.
  unfold unrefElement. destruct (toValue elRef) as [| | el | el | el];
    cbn; (split; [|split]); try reflexivity; try discriminate.
  - destruct (is_nullish el) eqn:Hn; unfold coalesce; now rewrite Hn.
  - intros el' Heq. injection Heq as <-. reflexivity.
  - intros Hnot. now destruct (Hnot el).
Qed.

Lemma unrefElement_keeps_target_witness :
  unrefElement (RefOf (VueInstance ElNull)) = VueInstance ElNull
  /\ unrefElement (Getter (fun _ => VueInstance (HTMLElement 3%nat)))
     = HTMLElement 3%nat
  /\ unrefElement (Plain ElNull) = ElNull.
Proof.
  split; [|split].
  - exact (proj1 (proj2 (unrefElement_keeps_target
                           (RefOf (VueInstance ElNull))))
             ElNull eq_refl).
  - exact (proj1 (proj2 (unrefElement_keeps_target
                           (Getter (fun _ => VueInstance (HTMLElement 3%nat)))))
             (HTMLElement 3%nat) eq_refl).
  - apply (proj2 (proj2 (unrefElement_keeps_target (Plain ElNull)))).
    intros el. discriminate.
Defined.

(** ** The calendar page *)

Section AppProperties.

Variable CalendarDate : Type.
Variable add_month : CalendarDate -> CalendarDate.
Variable subtract_month : CalendarDate -> CalendarDate.
Variable copy : CalendarDate -> CalendarDate.

Lemma app_capture_keeps_date e date :
  fold_left (app_effect CalendarDate add_month subtract_month copy)
    (capture_of e) date = date.
Proof. unfold capture_of. now destruct (target e). Qed.

(** X11. On the calendar page a gesture whose pointer-down handler
    completed (its capture request returned) and that met the threshold
    turns the page once: forward when the direction at pointer-up is ['right'],
    backward for every other direction. So an upward or a downward swipe
    pages backward, and so does a swipe whose last move is back below the
    threshold, whose direction is ['none']. *)
Theorem app_swipe_turns_page e0 pre m post eu date :
  eventIsAllowed app_options e0 = true -> captures e0 = true ->
  Forall (fun e => eventIsAllowed app_options e = true) (pre ++ m :: post) ->
  eventIsAllowed app_options eu = true ->
  Forall (fun e => meets app_options (position_of e0) e = false) pre ->
  meets app_options (position_of e0) m = true ->
  let after := app_run CalendarDate add_month subtract_month copy
                 (gesture e0 (pre ++ m :: post) eu) date in
  let d := direction app_options (at_pointerup e0 m post) in
  (d = Direction.right -> after = nextPage CalendarDate add_month copy date)
  /\ (d <> Direction.right ->
      after = prevPage CalendarDate subtract_month copy date)
  /\ (meets app_options (position_of e0) (last post m) = false ->
      after = prevPage CalendarDate subtract_month copy date).
Proof.
  intros Ha0 Hc0 Hall Hau Hbelow Hm. cbv zeta. unfold app_run.
  destruct (gesture_run app_options e0 pre m post eu usePointerSwipe
              usePointerSwipe_all_attached eq_refl Ha0 Hc0 Hall Hau Hbelow Hm)
    as (Hw & _ & _).
  cbv zeta in Hw. rewrite Hw. cbn [app_options Options.onSwipeStart
    Options.onSwipe Options.onSwipeEnd app].
  rewrite fold_left_app, app_capture_keeps_date.
  cbn [fold_left app_effect].
  assert (Hother : direction app_options (at_pointerup e0 m post)
                   <> Direction.right ->
                   app_onSwipeEnd CalendarDate add_month subtract_month copy
                     (direction app_options (at_pointerup e0 m post)) date
                   = prevPage CalendarDate subtract_month copy date).
  { intros Hd.
    destruct (direction app_options (at_pointerup e0 m post));
      try reflexivity. now destruct Hd. }
  split; [|split].
  - intros Hd. now rewrite Hd.
  - exact Hother.
  - intros Hback. apply Hother.
    rewrite direction_below; [discriminate|].
    rewrite (isThresholdExceeded_meets app_options _ (last post m))
      by apply position_of_last.
    exact Hback.
Qed.


End AppProperties.

Lemma app_swipe_turns_page_witness :
  app_run Z Z.succ Z.pred (fun d => d)
    (gesture (press 0 0) [press 80 0] (release 80 0)) 6 = 7
  /\ app_run Z Z.succ Z.pred (fun d => d)
       (gesture (press 0 0) [press 0 80] (release 0 80)) 6 = 5
  /\ app_run Z Z.succ Z.pred (fun d => d)
       (gesture (press 0 0) [press 80 0; press 5 0] (release 5 0)) 6 = 5.
Proof.
  split; [|split].
  - refine (proj1 (app_swipe_turns_page Z Z.succ Z.pred (fun d => d)
                     (press 0 0) [] (press 80 0) [] (release 80 0) 6
                     eq_refl eq_refl _ eq_refl _ eq_refl) eq_refl);
      repeat constructor.
  - refine (proj1 (proj2 (app_swipe_turns_page Z Z.succ Z.pred (fun d => d)
                            (press 0 0) [] (press 0 80) [] (release 0 80) 6
                            eq_refl eq_refl _ eq_refl _ eq_refl)) _);
      [repeat constructor | repeat constructor | vm_compute; discriminate].
  - refine (proj2 (proj2 (app_swipe_turns_page Z Z.succ Z.pred (fun d => d)
                            (press 0 0) [] (press 80 0) [press 5 0]
                            (release 5 0) 6
                            eq_refl eq_refl _ eq_refl _ eq_refl)) eq_refl);
      repeat constructor.
Defined.


(** ** Pointer identity and capture *)

(** X13. Pointer capture is requested by an allowed pointer-down and by
    nothing else, on the event's own target and for the event's own
    pointer id. *)
Theorem capture_only_on_pointerdown options i tr el id :
  In (SetPointerCapture el id) (snd (step options i tr)) ->
  exists e, i = Dispatch pointerdown e
            /\ eventIsAllowed options e = true
            /\ target e = Some el /\ pointerId e = id.
Proof.
  destruct i as [n e|]; cbn [step snd]; [|intros []].
  unfold dispatch.
  destruct (in_dec EventName_eq_dec n (listeners tr)); [|intros []].
  destruct n; cbn [handler].
  - rewrite exec_pointerdown.
    destruct (eventIsAllowed options e) eqn:Ha; [|intros []].
    destruct (captures e); cbn [snd]; [|intros []].
    intros Hin. exists e. apply in_app_or in Hin.
    destruct Hin as [Hin | Hin].
    + unfold capture_of in Hin. destruct (target e) as [t|]; [|destruct Hin].
      destruct Hin as [Heq | []]. injection Heq as -> ->. now repeat split.
    + destruct (Options.onSwipeStart options); [|destruct Hin].
      destruct Hin as [Heq | []]. discriminate.
  - rewrite exec_pointermove.
    destruct (eventIsAllowed options e && isPointerDown (state tr));
      cbn [snd]; [|intros []].
    destruct (_ && _); [|intros []]. intros [Heq | []]. discriminate.
  - rewrite exec_pointerup.
    destruct (eventIsAllowed options e); cbn [snd]; [|intros []].
    destruct (_ && _); [|intros []]. intros [Heq | []]. discriminate.
Qed.

Lemma capture_only_on_pointerdown_witness :
  exists e, Dispatch pointerdown (press 3 4) = Dispatch pointerdown e
            /\ eventIsAllowed default_options e = true
            /\ target e = Some surface /\ pointerId e = 1.
Proof.
  apply (capture_only_on_pointerdown default_options
           (Dispatch pointerdown (press 3 4)) usePointerSwipe surface 1).
  cbn. now left.
Defined.

(** X14. The handlers of pointer-move and pointer-up do not tell
    pointers apart: two events that agree on pointer type, buttons and
    coordinates lead to the same state, whatever their pointer ids and
    targets. A move of a second pointer therefore moves posEnd of the
    gesture the first one began. The pointer-down handler looks at the
    pointer id and the target only through its capture request: it too
    leads to the same state for two such events when the request returns
    for both or throws for both. *)
Theorem pointer_id_ignored options n e e' s :
  pointerType e = pointerType e' -> buttons e = buttons e' ->
  clientX e = clientX e' -> clientY e = clientY e' ->
  (n = pointerdown -> captures e = captures e') ->
  fst (exec (handler options n e) s) = fst (exec (handler options n e') s).
Proof.
  intros Ht Hb Hx Hy Hcap.
  assert (Ha : eventIsAllowed options e = eventIsAllowed options e')
    by (unfold eventIsAllowed; now rewrite Ht, Hb).
  assert (Hp : position_of e = position_of e')
    by (unfold position_of; now rewrite Hx, Hy).
  destruct n; cbn [handler].
  - rewrite !exec_pointerdown, Ha, Hp, (Hcap eq_refl).
    destruct (eventIsAllowed options e'); [|reflexivity].
    now destruct (captures e').
  - rewrite !exec_pointermove, Ha, Hp.
    now destruct (eventIsAllowed options e' && isPointerDown s).
  - rewrite !exec_pointerup, Ha.
    now destruct (eventIsAllowed options e').
Qed.

Lemma pointer_id_ignored_witness :
  fst (exec (handler default_options pointermove (press 90 0))
         (ledger 0 0 0 0))
  = fst (exec (handler default_options pointermove (synthetic 90 0))
           (ledger 0 0 0 0))
  /\ fst (exec (handler default_options pointerdown (press 90 0))
            (ledger 0 0 0 0))
     = fst (exec (handler default_options pointerdown
                    {| pointerType := "mouse"; buttons := 1;
                       clientX := 90; clientY := 0;
                       pointerId := 5; target := None |})
              (ledger 0 0 0 0)).
Proof.
  split.
  - apply (pointer_id_ignored default_options pointermove (press 90 0)
             (synthetic 90 0) (ledger 0 0 0 0));
      try reflexivity. discriminate.
  - apply (pointer_id_ignored default_options pointerdown (press 90 0)
             {| pointerType := "mouse"; buttons := 1;
                clientX := 90; clientY := 0;
                pointerId := 5; target := None |}
             (ledger 0 0 0 0));
      reflexivity.
Defined.

(** ** A pointer-down whose capture request throws *)

(** X15. When the capture request of an allowed pointer-down throws, the
    handler has set isPointerDown and done nothing else: posStart, posEnd
    and isSwiping are as before and nothing is called. The moves that
    follow are measured from the old posStart: the next allowed move
    makes the tracker swiping exactly when it was swiping already or the
    event is at least the threshold away from that old start. *)
Theorem pointerdown_capture_throws options e s :
  eventIsAllowed options e = true -> captures e = false ->
  let s1 := fst (exec (on_pointerdown options e) s) in
  snd (exec (on_pointerdown options e) s) = []
  /\ isPointerDown s1 = true
  /\ posStart s1 = posStart s /\ posEnd s1 = posEnd s
  /\ isSwiping s1 = isSwiping s
  /\ (forall e2, eventIsAllowed options e2 = true ->
        isSwiping (fst (exec (on_pointermove options e2) s1))
        = isSwiping s || meets options (posStart s) e2).
Proof.
  intros Ha Hcap. cbv zeta. rewrite exec_pointerdown, Ha, Hcap.
  cbn [fst snd isPointerDown posStart posEnd isSwiping].
  repeat split.
  intros e2 Ha2. rewrite exec_pointermove, Ha2. reflexivity.
Qed.

Lemma pointerdown_capture_throws_witness :
  let s := state usePointerSwipe in
  let s1 := fst (exec (on_pointerdown default_options (synthetic 200 200)) s) in
  snd (exec (on_pointerdown default_options (synthetic 200 200)) s) = []
  /\ isPointerDown s1 = true
  /\ posStart s1 = {| x := 0; y := 0 |}
  /\ isSwiping (fst (exec (on_pointermove default_options (press 210 200)) s1))
     = true.
Proof.
  destruct (pointerdown_capture_throws default_options (synthetic 200 200)
              (state usePointerSwipe) eq_refl eq_refl)
    as (Hw & Hd & Hs & _ & _ & Hmove).
  cbv zeta. split; [exact Hw|]. split; [exact Hd|]. split; [exact Hs|].
  rewrite (Hmove (press 210 200) eq_refl). reflexivity.
Defined.
